(** * Crawly: the render-thread bridge of [src/crawly/crawly.py]

    A shallow embedding of the rate-limited command queue ([TimedQueue]),
    the process-wide state ([Data]), the flush operations [draw] and
    [redraw], the composite executor [do_draw] and the render loop
    [pygame_loop].

    Time.  [time.time()] returns seconds as a float and the queue stores
    [cooldown / 1000.0] seconds; here every clock reading, the cooldown and
    the accumulated time are integers counted in milliseconds, so the
    division by 1000 is a change of unit applied to all of them alike. *)

From Stdlib Require Import ZArith List Lia.
From stdpp Require Import base gmap list strings.
Import ListNotations.
Open Scope Z_scope.

(** ** The rate-limited queue ([class TimedQueue]) *)
Section TimedQueueSec.
Variable A : Type.

Record TimedQueue := mkTimedQueue {
  elements : list A;
  cooldown : Z;     (* milliseconds *)
  time_since : Z;   (* accumulated elapsed time, milliseconds *)
  t : Z             (* clock reading of the previous [pop] *)
}.

(** [__init__(self, cooldown)] *)
Definition TimedQueue_init (c : Z) : TimedQueue :=
  mkTimedQueue [] c 0 0.

(** [set_cooldown(self, cool)] *)
Definition set_cooldown (q : TimedQueue) (cool : Z) : TimedQueue :=
  mkTimedQueue (elements q) cool (time_since q) (t q).

(** [push(self, el)]: [self.elements.append(el)] *)
Definition push (q : TimedQueue) (el : A) : TimedQueue :=
  mkTimedQueue (elements q ++ [el]) (cooldown q) (time_since q) (t q).

(** [_pop(self)]: [el = self.elements[0]] raises [IndexError] on an empty
    list, caught as [None]; [self.elements.remove(el)] removes the first
    element that [is] or [==] [el], which is index 0 ([el] itself). *)
Definition _pop (q : TimedQueue) : option A * TimedQueue :=
  match elements q with
  | [] => (None, q)
  | el :: rest => (Some el, mkTimedQueue rest (cooldown q) (time_since q) (t q))
  end.

(** [pop(self)] reads the clock twice:
<<
        t = time.time()                       # t1
        self.time_since += time.time() - self.t   # t2 - self.t
        self.t = t
        if self.time_since > self.cooldown:
            self.time_since = 0.0
            return self._pop()
        return None
>> *)
Definition pop (q : TimedQueue) (t1 t2 : Z) : option A * TimedQueue :=
  let ts := time_since q + (t2 - t q) in
  let q1 := mkTimedQueue (elements q) (cooldown q) ts t1 in
  if cooldown q1 <? time_since q1
  then _pop (mkTimedQueue (elements q1) (cooldown q1) 0 (t q1))
  else (None, q1).

(** A sequence of calls on one queue. *)
Inductive QOp :=
| QPush (el : A)
| QPop (t1 t2 : Z)
| QSetCooldown (cool : Z).

(** Runs the calls in order; returns the elements the pops returned
    (the [None] results dropped) and the final queue. *)
Fixpoint run_q (q : TimedQueue) (ops : list QOp) : list A * TimedQueue :=
  match ops with
  | [] => ([], q)
  | QPush el :: ops' => run_q (push q el) ops'
  | QSetCooldown c :: ops' => run_q (set_cooldown q c) ops'
  | QPop t1 t2 :: ops' =>
      let '(r, q') := pop q t1 t2 in
      let '(outs, qf) := run_q q' ops' in
      (match r with Some x => x :: outs | None => outs end, qf)
  end.

Fixpoint pushed (ops : list QOp) : list A :=
  match ops with
  | [] => []
  | QPush el :: ops' => el :: pushed ops'
  | _ :: ops' => pushed ops'
  end.

End TimedQueueSec.

Arguments mkTimedQueue {A}.
Arguments elements {A}.
Arguments cooldown {A}.
Arguments time_since {A}.
Arguments t {A}.
Arguments TimedQueue_init {A}.
Arguments set_cooldown {A}.
Arguments push {A}.
Arguments _pop {A}.
Arguments pop {A}.
Arguments QPush {A}.
Arguments QPop {A}.
Arguments QSetCooldown {A}.
Arguments run_q {A}.
Arguments pushed {A}.

(** ** Render items and the screen

    A render item is a [functools.partial] over a pygame primitive; it only
    acts on the window.  It is modelled by a name and by whether calling it
    raises (a bad colour name, a non-numeric radius, ...).  The window is
    modelled by the log of what was done to it. *)
Record Item := mkItem { item_name : nat; item_raises : bool }.

Definition good (n : nat) : Item := mkItem n false.
Definition bad (n : nat) : Item := mkItem n true.

Inductive Event :=
| Fill (c : string)   (* data.screen.fill(c) *)
| Run (n : nat)       (* a render item drew *)
| Report (n : nat)    (* print("ERROR::RENDER_ERROR: ...") *)
| Flip.               (* pygame.display.flip() *)

(** A composite command [[do_draw, (refresh, ls)]]: [ls] is a reference
    to a Python list object of the heap. *)
Record Composite := mkComposite { refresh : bool; ls : nat }.

Inductive PyEvent := QUIT | OtherEvent.

(** ** The global state ([class Data]), restricted to the fields the
    render bridge uses.  Python list objects that are shared by reference
    ([data.draw_list] and the lists captured by composites) live in
    [heap]; [draw_list] is the reference held by [data.draw_list]. *)
Record Data := mkData {
  ms : Z;
  background : string;
  heap : gmap nat (list Item);
  next_ref : nat;               (* next fresh list object *)
  draw_list : nat;
  background_list : list Item;
  draw_background : bool;
  render_commands : TimedQueue Composite;
  done : bool;
  running : bool;
  thread_alive : bool;          (* the pygame thread has neither returned nor raised *)
  screen : list Event
}.

(** [Data()]; the list object of [data.draw_list] is reference 0. *)
Definition data_init : Data :=
  mkData 1000 "white" {[ 0%nat := [] ]} 1 0 [] false (TimedQueue_init 1000)
         false false false [].

Definition heap_get (s : Data) (r : nat) : list Item :=
  default [] (heap s !! r).

Definition set_heap (s : Data) (h : gmap nat (list Item)) : Data :=
  mkData (ms s) (background s) h (next_ref s) (draw_list s) (background_list s)
         (draw_background s) (render_commands s) (done s) (running s)
         (thread_alive s) (screen s).

Definition set_render_commands (s : Data) (q : TimedQueue Composite) : Data :=
  mkData (ms s) (background s) (heap s) (next_ref s) (draw_list s) (background_list s)
         (draw_background s) q (done s) (running s) (thread_alive s) (screen s).

Definition log_event (s : Data) (e : Event) : Data :=
  mkData (ms s) (background s) (heap s) (next_ref s) (draw_list s) (background_list s)
         (draw_background s) (render_commands s) (done s) (running s)
         (thread_alive s) (screen s ++ [e]).

(** [lst.clear()] on the list object [r]. *)
Definition clear (s : Data) (r : nat) : Data := set_heap s (<[r := []]> (heap s)).

(** Calling one render item [i()]: [false] when it raises. *)
Definition call_item (s : Data) (i : Item) : bool * Data :=
  if item_raises i then (false, s) else (true, log_event s (Run (item_name i))).

(** [for i in data.background_list: i()] (no [try]: an exception leaves
    the loop and [do_draw]). *)
Fixpoint run_background (s : Data) (l : list Item) : bool * Data :=
  match l with
  | [] => (true, s)
  | i :: l' =>
      let '(ok, s') := call_item s i in
      if ok then run_background s' l' else (false, s')
  end.

(** [for i in draw_list: try: i() except Exception as e: print(...)] *)
Fixpoint run_draw_items (s : Data) (l : list Item) : Data :=
  match l with
  | [] => s
  | i :: l' =>
      let '(ok, s') := call_item s i in
      run_draw_items (if ok then s' else log_event s' (Report (item_name i))) l'
  end.

(** [do_draw(refresh, draw_list)]; the boolean is [false] when an
    exception escapes. *)
Definition do_draw (s : Data) (refresh : bool) (draw_list : nat) : bool * Data :=
  let '(ok, s1) :=
    if refresh
    then run_background (log_event s (Fill (background s))) (background_list s)
    else (true, s) in
  if ok then
    let s2 := run_draw_items s1 (heap_get s1 draw_list) in
    let s3 := clear s2 draw_list in
    (true, log_event s3 Flip)
  else (false, s1).

(** [draw()]: [ls = data.draw_list.copy()] allocates a new list object. *)
Definition draw (s : Data) : Data :=
  let n := next_ref s in
  let h := <[n := heap_get s (draw_list s)]> (heap s) in
  let q := push (render_commands s) (mkComposite false n) in
  let h' := <[draw_list s := []]> h in
  mkData (ms s) (background s) h' (S n) (draw_list s) (background_list s)
         (draw_background s) q (done s) (running s) (thread_alive s) (screen s).

(** [redraw()]: [ls = data.draw_list] is the list object itself. *)
Definition redraw (s : Data) : Data :=
  let q := push (render_commands s) (mkComposite true (draw_list s)) in
  let h' := <[draw_list s := []]> (heap s) in
  mkData (ms s) (background s) h' (next_ref s) (draw_list s) (background_list s)
         (draw_background s) q (done s) (running s) (thread_alive s) (screen s).

(** [add_draw_item(draw_function)] *)
Definition add_draw_item (s : Data) (f : Item) : Data :=
  let bl := if draw_background s then background_list s ++ [f] else background_list s in
  let h := <[draw_list s := heap_get s (draw_list s) ++ [f]]> (heap s) in
  mkData (ms s) (background s) h (next_ref s) (draw_list s) bl
         (draw_background s) (render_commands s) (done s) (running s)
         (thread_alive s) (screen s).

(** [set_speed(speed)] *)
Definition clamp_speed (speed : Z) : Z :=
  if speed <? 1 then 1 else if 10 <? speed then 10 else speed.

Definition set_speed (s : Data) (speed : Z) : Data :=
  let speed := clamp_speed speed in
  let m := 33 + 197 * (10 - speed) in
  mkData m (background s) (heap s) (next_ref s) (draw_list s) (background_list s)
         (draw_background s) (set_cooldown (render_commands s) m) (done s)
         (running s) (thread_alive s) (screen s).

Definition set_draw_background (s : Data) (b : bool) : Data :=
  mkData (ms s) (background s) (heap s) (next_ref s) (draw_list s) (background_list s)
         b (render_commands s) (done s) (running s) (thread_alive s) (screen s).

(** [done()]: [with data.thread_lock: data.done = True], then a join,
    which changes no state. *)
Definition call_done (s : Data) : Data :=
  mkData (ms s) (background s) (heap s) (next_ref s) (draw_list s) (background_list s)
         (draw_background s) (render_commands s) true (running s) (thread_alive s)
         (screen s).

(** [start(...)] sets [data.running = True] and spawns the thread, whose
    setup stores the background, fills the window with it and flips. *)
Definition start (s : Data) (bg : string) : Data :=
  mkData (ms s) bg (heap s) (next_ref s) (draw_list s) (background_list s)
         (draw_background s) (render_commands s) (done s) true true
         (screen s ++ [Fill bg; Flip]).

Definition set_running (s : Data) (b : bool) : Data :=
  mkData (ms s) (background s) (heap s) (next_ref s) (draw_list s) (background_list s)
         (draw_background s) (render_commands s) (done s) b (thread_alive s) (screen s).

Definition set_thread_alive (s : Data) (b : bool) : Data :=
  mkData (ms s) (background s) (heap s) (next_ref s) (draw_list s) (background_list s)
         (draw_background s) (render_commands s) (done s) (running s) b (screen s).

(** One [while data.running:] test followed by the rendering block:
<<
        with data.thread_lock:
            el = data.render_commands.pop()
            if el:
                comm, args = el
                comm( *args)
>>
    When [data.running] is false the loop ends and the thread returns; an
    exception escaping [do_draw] ends the thread too. *)
Definition render_step (s : Data) (t1 t2 : Z) : Data :=
  if negb (thread_alive s) then s
  else if negb (running s) then set_thread_alive s false
  else
    let '(el, q') := pop (render_commands s) t1 t2 in
    let s1 := set_render_commands s q' in
    match el with
    | None => s1
    | Some c =>
        let '(ok, s2) := do_draw s1 (refresh c) (ls c) in
        if ok then s2 else set_thread_alive s2 false
    end.

(** One event of [for event in pygame.event.get():]
<<
            with data.thread_lock:
                if event.type == pygame.QUIT and data.done:
                    data.running = False
>> *)
Definition is_quit (e : PyEvent) : bool :=
  match e with QUIT => true | OtherEvent => false end.

Definition event_step (s : Data) (e : PyEvent) : Data :=
  if negb (thread_alive s) then s
  else if is_quit e && done s then set_running s false
  else s.

(** The operations of both threads; each runs atomically under
    [data.thread_lock], so an interleaving is a list of them. *)
Inductive Op :=
| OpStart (bg : string)
| OpAdd (f : Item)
| OpDraw
| OpRedraw
| OpSetSpeed (speed : Z)
| OpBackgroundBegin
| OpBackgroundEnd
| OpDone
| OpRender (t1 t2 : Z)
| OpEvent (e : PyEvent).

Definition step (s : Data) (o : Op) : Data :=
  match o with
  | OpStart bg => start s bg
  | OpAdd f => add_draw_item s f
  | OpDraw => draw s
  | OpRedraw => redraw s
  | OpSetSpeed sp => set_speed s sp
  | OpBackgroundBegin => set_draw_background s true
  | OpBackgroundEnd => set_draw_background s false
  | OpDone => call_done s
  | OpRender t1 t2 => render_step s t1 t2
  | OpEvent e => event_step s e
  end.

Definition run_ops (s : Data) (ops : list Op) : Data := fold_left step ops s.

Definition is_start (o : Op) : bool :=
  match o with OpStart _ => true | _ => false end.

(** ** Rectangle geometry ([rectangle])

    Python's [//] on integers is floor division, [Z.div]; [-width // 2]
    parses as [(-width) // 2].  The rotated surface comes from pygame:
    [rot_w] and [rot_h] are the width and height of
    [pygame.transform.rotate(s, rotation_angle)], which depend on the angle
    only through pygame. *)
Inductive RotationPoint :=
| BOTTOM_LEFT | BOTTOM_RIGHT | TOP_RIGHT | TOP_LEFT | CENTER
| Point (x_pt y_pt : Z).   (* "manually enter a point as a tuple" *)

Definition nRenderRatio : Z := 8.

Definition rotation_offset_center (x_pos y_pos width height : Z) (rp : RotationPoint) : Z * Z :=
  match rp with
  | CENTER => (0, 0)
  | BOTTOM_LEFT => ((- width) / 2, height / 2)
  | BOTTOM_RIGHT => (width / 2, height / 2)
  | TOP_RIGHT => (width / 2, (- height) / 2)
  | TOP_LEFT => ((- width) / 2, (- height) / 2)
  | Point x_pt y_pt => (x_pt - x_pos - width / 2, y_pt - y_pos - height / 2)
  end.

(** What [rectangle] computes, in the units of the code. *)
Record RectLayout := mkRectLayout {
  offset : Z * Z;                (* rotation_offset_center *)
  surf_size : Z * Z;             (* (sw, sh) *)
  rect_box : Z * Z * Z * Z;      (* the rect drawn on s, in render units (x8) *)
  scaled_size : Z * Z;           (* size of s after rotate and smoothscale *)
  blit_pos : Z * Z               (* where s is blitted on the screen *)
}.

Definition rectangle_layout (x_pos y_pos width height : Z) (rp : RotationPoint)
    (rot_w rot_h : Z) : RectLayout :=
  let '(ox, oy) := rotation_offset_center x_pos y_pos width height rp in
  let sw := width + Z.abs ox * 2 in
  let sh := height + Z.abs oy * 2 in
  let surfcenterx := sw / 2 in
  let surfcentery := sh / 2 in
  let rw2 := width / 2 in
  let rh2 := height / 2 in
  let box := ((surfcenterx - rw2 - ox) * nRenderRatio,
              (surfcentery - rh2 - oy) * nRenderRatio,
              width * nRenderRatio, height * nRenderRatio) in
  (* s = pygame.transform.smoothscale(s, (s.get_width() // 8, s.get_height() // 8)) *)
  let w' := rot_w / nRenderRatio in
  let h' := rot_h / nRenderRatio in
  let incfromrotw := (w' - sw) / 2 in
  let incfromroth := (h' - sh) / 2 in
  mkRectLayout (ox, oy) (sw, sh) box (w', h')
    (x_pos - surfcenterx + ox + rw2 - incfromrotw,
     y_pos - surfcentery + oy + rh2 - incfromroth).

(** ** Shape builders

    The arguments each builder binds in its [functools.partial]; the
    colour is [data.color] read when the builder is called. *)
Module Builders.

Inductive Shape :=
| SCircle (color : string) (x_pos y_pos radius stroke : Z)
| SLine (color : string) (x_pos1 y_pos1 x_pos2 y_pos2 stroke : Z)
| SPolygon (color : string) (points : list (Z * Z)) (width : Z)
| SEllipse (color : string) (x_pos y_pos width height stroke : Z).

Record Painter := mkPainter {
  color : string;
  poly_width : Z;
  poly_points : list (Z * Z);
  draw_list : list Shape;
  background_list : list Shape;
  draw_background : bool
}.

Definition painter_init : Painter := mkPainter "black" 0 [] [] [] false.

(** [add_draw_item(draw_function)] *)
Definition add_draw_item (p : Painter) (f : Shape) : Painter :=
  mkPainter (color p) (poly_width p) (poly_points p) (draw_list p ++ [f])
    (if draw_background p then background_list p ++ [f] else background_list p)
    (draw_background p).

Definition set_color (p : Painter) (new_color : string) : Painter :=
  mkPainter new_color (poly_width p) (poly_points p) (draw_list p)
    (background_list p) (draw_background p).

Definition circle (p : Painter) (x_pos y_pos radius stroke : Z) : Painter :=
  add_draw_item p (SCircle (color p) x_pos y_pos radius stroke).

Definition line (p : Painter) (x_pos1 y_pos1 x_pos2 y_pos2 stroke : Z) : Painter :=
  add_draw_item p (SLine (color p) x_pos1 y_pos1 x_pos2 y_pos2 stroke).

Definition ellipse (p : Painter) (x_pos y_pos width height stroke : Z) : Painter :=
  add_draw_item p (SEllipse (color p) x_pos y_pos width height stroke).

(** [polygon_begin(stroke)]: [data.poly_points.clear()] *)
Definition polygon_begin (p : Painter) (stroke : Z) : Painter :=
  mkPainter (color p) stroke [] (draw_list p) (background_list p) (draw_background p).

(** [add_poly_point(x_pos, y_pos)]: [data.poly_points.append([x_pos, y_pos])] *)
Definition add_poly_point (p : Painter) (x_pos y_pos : Z) : Painter :=
  mkPainter (color p) (poly_width p) (poly_points p ++ [(x_pos, y_pos)]) (draw_list p)
    (background_list p) (draw_background p).

(** [polygon_end()]: binds [data.poly_points.copy()]; the points are not
    cleared. *)
Definition polygon_end (p : Painter) : Painter :=
  add_draw_item p (SPolygon (color p) (poly_points p) (poly_width p)).

Definition background_begin (p : Painter) : Painter :=
  mkPainter (color p) (poly_width p) (poly_points p) (draw_list p) (background_list p) true.

Definition background_end (p : Painter) : Painter :=
  mkPainter (color p) (poly_width p) (poly_points p) (draw_list p) (background_list p) false.

Definition add_poly_points (p : Painter) (pts : list (Z * Z)) : Painter :=
  fold_left (fun p '(x, y) => add_poly_point p x y) pts p.

End Builders.

(** * Properties *)

(** ** Sanity checks on concrete inputs *)
Example set_speed_0 : ms (set_speed data_init 0) = 1806.
Proof. reflexivity. Qed.

Example pop_equal_boundary :
  fst (pop (mkTimedQueue [7%nat] 1000 0 5000) 6000 6000) = None.
Proof. reflexivity. Qed.

(** ** The queue *)
Section QueueProps.
Context {A : Type}.

Lemma pop_cases (q : TimedQueue A) (t1 t2 : Z) :
  let total := time_since q + (t2 - t q) in
  let '(r, q') := pop q t1 t2 in
  (cooldown q < total /\ r = head (elements q) /\ elements q' = tail (elements q)
   /\ time_since q' = 0 /\ cooldown q' = cooldown q /\ t q' = t1)
  \/ (total <= cooldown q /\ r = None /\ elements q' = elements q
      /\ time_since q' = total /\ cooldown q' = cooldown q /\ t q' = t1).
Proof.
  unfold pop; cbn.
  destruct (Z.ltb_spec (cooldown q) (time_since q + (t2 - t q))) as [Hlt | Hle].
  - unfold _pop; cbn. destruct (elements q); cbn; left; repeat split; lia.
  - cbn. right. repeat split; lia.
Qed.

Lemma pushes_elements (q : TimedQueue A) (els : list A) :
  elements (fold_left push els q) = elements q ++ els /\
  cooldown (fold_left push els q) = cooldown q /\
  time_since (fold_left push els q) = time_since q /\
  t (fold_left push els q) = t q.
Proof.
  revert q; induction els as [|x els IH]; intros q; simpl.
  - rewrite app_nil_r; auto.
  - destruct (IH (push q x)) as (H1 & H2 & H3 & H4).
    rewrite H1, H2, H3, H4; simpl. rewrite <- app_assoc; auto.
Qed.

Lemma run_q_fifo (q : TimedQueue A) (ops : list (QOp A)) :
  fst (run_q q ops) ++ elements (snd (run_q q ops)) = elements q ++ pushed ops.
Proof.
  revert q; induction ops as [|o ops IH]; intros q; simpl.
  - rewrite app_nil_r; reflexivity.
  - destruct o as [el | t1 t2 | c]; simpl.
    + rewrite IH; simpl; rewrite <- app_assoc; reflexivity.
    + pose proof (pop_cases q t1 t2) as Hc.
      destruct (pop q t1 t2) as [r q'] eqn:Hp.
      specialize (IH q').
      destruct (run_q q' ops) as [outs qf]; simpl in *.
      destruct Hc as [(_ & Hr & He & _) | (_ & Hr & He & _)]; subst r.
      * destruct (elements q) as [|x xs] eqn:Eq; simpl in *.
        -- rewrite He in IH; exact IH.
        -- rewrite He in IH; rewrite IH; reflexivity.
      * rewrite He in IH; exact IH.
    + apply (IH (set_cooldown q c)).
Qed.

End QueueProps.

(** ** Claims on the rate-limited queue *)

(** Claim C1 (as amended).  Every call of [pop] first adds the time since
    the previous poll to the accumulated time.  When that total strictly
    exceeds the cooldown, the total is reset to zero and the head element
    is removed and returned ([None] when the queue is empty); otherwise
    [pop] returns nothing, leaves the elements unchanged and keeps the
    total. *)
Theorem C1_pop_gate (q : TimedQueue Composite) (t1 t2 : Z) :
  let total := time_since q + (t2 - t q) in
  let '(r, q') := pop q t1 t2 in
  (cooldown q < total /\ r = head (elements q) /\ elements q' = tail (elements q)
   /\ time_since q' = 0)
  \/ (total <= cooldown q /\ r = None /\ elements q' = elements q
      /\ time_since q' = total).
Proof.
  pose proof (pop_cases q t1 t2) as H. cbn zeta in *.
  destruct (pop q t1 t2) as [r q'].
  destruct H as [(H1 & H2 & H3 & H4 & _) | (H1 & H2 & H3 & H4 & _)]; [left | right]; auto.
Qed.

(** Claim C1 (counterexample).  With one element queued, a cooldown of
    1000 ms and exactly 1000 ms accumulated (elapsed >= cooldown), [pop]
    returns nothing: the gate compares with a strict [>]. *)
Lemma C1_counterexample :
  let q := mkTimedQueue [mkComposite false 1] 1000 0 1700000000000 in
  1000 <= time_since q + (1700000001000 - t q) /\ elements q <> [] /\
  fst (pop q 1700000001000 1700000001000) = None.
Proof. cbn. split; [lia | split; [discriminate | reflexivity]]. Qed.

(** Claim C4 (as amended).  With a clock that does not go backwards, a
    poll whose total (accumulated time plus time since the previous poll)
    does not exceed the cooldown returns nothing and keeps that total, so
    the accumulated time does not decrease; a poll whose total exceeds the
    cooldown resets it to zero, also when the queue is empty and it
    returns nothing. *)
Theorem C4_unsuccessful_poll_accumulates (q : TimedQueue Composite) (t1 t2 : Z)
    (Hclock : t q <= t2) :
  let total := time_since q + (t2 - t q) in
  let '(r, q') := pop q t1 t2 in
  (total <= cooldown q -> r = None /\ time_since q' = total /\ time_since q <= time_since q')
  /\ (cooldown q < total -> time_since q' = 0).
Proof.
  pose proof (pop_cases q t1 t2) as H. cbn zeta in *.
  destruct (pop q t1 t2) as [r q'].
  destruct H as [(H1 & H2 & H3 & H4 & _) | (H1 & H2 & H3 & H4 & _)];
    split; intros; try lia; repeat split; auto; lia.
Qed.

Lemma C4_witness :
  let q := mkTimedQueue [mkComposite false 1] 1000 200 1700000000000 in
  t q <= 1700000000500 /\
  (let total := time_since q + (1700000000500 - t q) in
   let '(r, q') := pop q 1700000000400 1700000000500 in
   (total <= cooldown q -> r = None /\ time_since q' = total /\ time_since q <= time_since q')
   /\ (cooldown q < total -> time_since q' = 0)).
Proof.
  cbn zeta. split.
  - cbn; lia.
  - apply (C4_unsuccessful_poll_accumulates
             (mkTimedQueue [mkComposite false 1] 1000 200 1700000000000)
             1700000000400 1700000000500).
    cbn; lia.
Defined.

(** Claim C4 (counterexample).  An empty queue polled after 2000 ms with
    500 ms already accumulated and a cooldown of 1000 ms: the poll returns
    nothing, yet the accumulated time is reset to zero. *)
Lemma C4_counterexample :
  let q := mkTimedQueue (@nil Composite) 1000 500 1700000000000 in
  fst (pop q 1700000002000 1700000002000) = None /\
  time_since q + (1700000002000 - t q) = 2500 /\
  time_since (snd (pop q 1700000002000 1700000002000)) = 0.
Proof. cbn. repeat split. Qed.

(** Claim C10.  A fresh queue has [t = 0], so its first [pop] (after any
    pushes) computes an elapsed time equal to the clock reading itself
    (milliseconds since the epoch); for every cooldown below that reading
    (every cooldown the program sets is at most 1806 ms, see
    [set_speed_cooldown_bound]) the gate opens at once and the head
    element, if any, is returned. *)
Theorem C10_first_pop_passes (c : Z) (els : list Composite) (t1 t2 : Z)
    (Hc : c < t2) :
  let q := fold_left push els (TimedQueue_init c) in
  time_since q + (t2 - t q) = t2 /\
  pop q t1 t2 = (head els, mkTimedQueue (tail els) c 0 t1).
Proof.
  cbn zeta.
  destruct (pushes_elements (TimedQueue_init c) els) as (H1 & H2 & H3 & H4).
  cbn in H1, H2, H3, H4.
  split; [rewrite H3, H4; lia |].
  unfold pop. rewrite H1, H2, H3, H4.
  replace (0 + (t2 - 0)) with t2 by lia.
  cbn. destruct (Z.ltb_spec c t2); [| lia].
  unfold _pop; cbn. destruct els; reflexivity.
Qed.

Lemma C10_witness :
  1000 < 1760000000000 /\
  (let q := fold_left push [mkComposite true 0; mkComposite false 1] (TimedQueue_init 1000) in
   time_since q + (1760000000000 - t q) = 1760000000000 /\
   pop q 1760000000000 1760000000000 =
     (Some (mkComposite true 0), mkTimedQueue [mkComposite false 1] 1000 0 1760000000000)).
Proof.
  split; [lia |].
  apply (C10_first_pop_passes 1000 [mkComposite true 0; mkComposite false 1]
           1760000000000 1760000000000).
  lia.
Defined.

(** ** Claim on [set_speed] *)

Lemma set_speed_cooldown_bound (s : Data) (speed : Z) :
  33 <= cooldown (render_commands (set_speed s speed)) <= 1806.
Proof.
  unfold set_speed, clamp_speed; cbn.
  destruct (Z.ltb_spec speed 1); [lia|].
  destruct (Z.ltb_spec 10 speed); lia.
Qed.

(** Claim C3 (as amended).  [set_speed] clamps its argument into [1, 10]
    and sets the cooldown to [33 + 197 * (10 - level)] ms; input 0 gives
    1806 ms, input 11 gives 33 ms and input 5 gives 1018 ms. *)
Theorem C3_set_speed_formula (s : Data) (speed : Z) :
  clamp_speed speed = Z.max 1 (Z.min 10 speed) /\
  ms (set_speed s speed) = 33 + 197 * (10 - clamp_speed speed) /\
  cooldown (render_commands (set_speed s speed)) = ms (set_speed s speed) /\
  ms (set_speed s 0) = 1806 /\ ms (set_speed s 11) = 33 /\ ms (set_speed s 5) = 1018.
Proof.
  repeat split; try reflexivity.
  unfold clamp_speed.
  destruct (Z.ltb_spec speed 1); [lia|].
  destruct (Z.ltb_spec 10 speed); lia.
Qed.

(** Claim C3 (counterexample).  Input 0 is clamped to 1 and yields
    [33 + 197 * 9 = 1806] ms, not 1790 ms. *)
Lemma C3_counterexample : ms (set_speed data_init 0) = 1806 /\ ms (set_speed data_init 0) <> 1790.
Proof. split; [reflexivity | discriminate]. Qed.

(** ** Frame of the composite executor

    [do_draw] only writes the window and clears the list object it was
    given: every other field of [Data] is left as it was. *)
Definition with_heap_screen (s : Data) (h : gmap nat (list Item)) (sc : list Event) : Data :=
  mkData (ms s) (background s) h (next_ref s) (draw_list s) (background_list s)
         (draw_background s) (render_commands s) (done s) (running s)
         (thread_alive s) sc.

Lemma with_heap_screen_self (s : Data) : with_heap_screen s (heap s) (screen s) = s.
Proof. destruct s; reflexivity. Qed.

Lemma with_heap_screen_twice (s : Data) h h' sc sc' :
  with_heap_screen (with_heap_screen s h sc) h' sc' = with_heap_screen s h' sc'.
Proof. reflexivity. Qed.

Lemma call_item_frame (s : Data) (i : Item) :
  exists sc, snd (call_item s i) = with_heap_screen s (heap s) sc.
Proof.
  unfold call_item. destruct (item_raises i).
  - exists (screen s). symmetry; apply with_heap_screen_self.
  - exists (screen s ++ [Run (item_name i)]). reflexivity.
Qed.

Lemma run_background_frame (s : Data) (l : list Item) :
  exists sc, snd (run_background s l) = with_heap_screen s (heap s) sc.
Proof.
  revert s; induction l as [|i l IH]; intros s; cbn.
  - exists (screen s). symmetry; apply with_heap_screen_self.
  - destruct (call_item_frame s i) as [sc Hsc].
    destruct (call_item s i) as [ok s'] eqn:Hc; cbn in Hsc; subst s'.
    destruct ok; cbn.
    + destruct (IH (with_heap_screen s (heap s) sc)) as [sc' Hsc'].
      exists sc'. rewrite Hsc'. reflexivity.
    + exists sc. reflexivity.
Qed.

Lemma run_draw_items_frame (s : Data) (l : list Item) :
  exists sc, run_draw_items s l = with_heap_screen s (heap s) sc.
Proof.
  revert s; induction l as [|i l IH]; intros s; cbn.
  - exists (screen s). symmetry; apply with_heap_screen_self.
  - destruct (call_item_frame s i) as [sc Hsc].
    destruct (call_item s i) as [ok s'] eqn:Hc; cbn in Hsc; subst s'.
    destruct ok.
    + destruct (IH (with_heap_screen s (heap s) sc)) as [sc' Hsc'].
      exists sc'. rewrite Hsc'. reflexivity.
    + destruct (IH (log_event (with_heap_screen s (heap s) sc) (Report (item_name i))))
        as [sc' Hsc'].
      exists sc'. rewrite Hsc'. reflexivity.
Qed.

Lemma do_draw_frame (s : Data) (r : bool) (n : nat) :
  exists sc,
    snd (do_draw s r n) = with_heap_screen s (heap s) sc \/
    snd (do_draw s r n) = with_heap_screen s (<[n := []]> (heap s)) sc.
Proof.
  unfold do_draw.
  assert (Hpre : exists sc, snd (if r then run_background (log_event s (Fill (background s)))
                                         (background_list s) else (true, s))
                            = with_heap_screen s (heap s) sc).
  { destruct r.
    - destruct (run_background_frame (log_event s (Fill (background s))) (background_list s))
        as [sc Hsc]. exists sc. rewrite Hsc. reflexivity.
    - exists (screen s). symmetry; apply with_heap_screen_self. }
  destruct Hpre as [sc Hsc].
  destruct (if r then _ else _) as [ok s1]; cbn in Hsc; subst s1.
  destruct ok.
  - destruct (run_draw_items_frame (with_heap_screen s (heap s) sc)
                (heap_get (with_heap_screen s (heap s) sc) n)) as [sc' Hsc'].
    rewrite Hsc'. exists (sc' ++ [Flip]). right. reflexivity.
  - exists sc. left. reflexivity.
Qed.

(** ** Claim on the close semantics of the render loop *)

(** Claim C6.  No operation of either thread turns [data.running] from
    true to false except a [QUIT] event observed while [data.done] is set;
    and a [QUIT] event observed before [done()] leaves the whole state
    unchanged, so the render thread keeps running. *)
Theorem C6_close_only_after_done (s : Data) (o : Op) :
  (running s = true -> running (step s o) = false -> o = OpEvent QUIT /\ done s = true)
  /\ (done s = false -> step s (OpEvent QUIT) = s).
Proof.
  split.
  - intros Hr Hr'. destruct o as [bg | f | | | sp | | | | t1 t2 | e]; cbn in Hr';
      try congruence.
    + unfold render_step in Hr'.
      destruct (thread_alive s) eqn:Ha; cbn in Hr'; [| congruence].
      rewrite Hr in Hr'; cbn in Hr'.
      destruct (pop (render_commands s) t1 t2) as [[c|] q'] eqn:Hp; cbn in Hr'; [| congruence].
      destruct (do_draw_frame (set_render_commands s q') (refresh c) (ls c)) as [sc Hsc].
      destruct (do_draw (set_render_commands s q') (refresh c) (ls c)) as [ok s2].
      cbn in Hsc.
      destruct Hsc as [-> | ->]; destruct ok; cbn in Hr'; congruence.
    + unfold event_step in Hr'.
      destruct (thread_alive s); cbn in Hr'; [| congruence].
      destruct e, (done s) eqn:Hd; cbn in Hr'; split; congruence.
  - intros Hd. cbn. unfold event_step. rewrite Hd.
    destruct (thread_alive s); reflexivity.
Qed.

(** ** Invariants of the operations *)

Lemma render_step_frame (s : Data) (t1 t2 : Z) :
  draw_list (render_step s t1 t2) = draw_list s /\
  next_ref (render_step s t1 t2) = next_ref s /\
  background_list (render_step s t1 t2) = background_list s.
Proof.
  unfold render_step.
  destruct (thread_alive s); cbn; [| auto].
  destruct (running s); cbn; [| auto].
  destruct (pop (render_commands s) t1 t2) as [[c|] q']; cbn; [| auto].
  destruct (do_draw_frame (set_render_commands s q') (refresh c) (ls c)) as [sc Hsc].
  destruct (do_draw (set_render_commands s q') (refresh c) (ls c)) as [ok s2].
  cbn in Hsc. destruct Hsc as [-> | ->]; destruct ok; cbn; auto.
Qed.

Lemma step_draw_list (s : Data) (o : Op) : draw_list (step s o) = draw_list s.
Proof.
  destruct o; cbn; try reflexivity.
  - apply render_step_frame.
  - unfold event_step. destruct (thread_alive s), (is_quit e && done s); reflexivity.
Qed.

Lemma step_next_ref (s : Data) (o : Op) : (next_ref s <= next_ref (step s o))%nat.
Proof.
  destruct o; cbn; try lia.
  - rewrite (proj1 (proj2 (render_step_frame s t1 t2))). lia.
  - unfold event_step. destruct (thread_alive s), (is_quit e && done s); cbn; lia.
Qed.

Lemma run_ops_app (s : Data) (ops ops' : list Op) :
  run_ops s (ops ++ ops') = run_ops (run_ops s ops) ops'.
Proof. unfold run_ops. apply fold_left_app. Qed.

Lemma run_ops_draw_list (s : Data) (ops : list Op) : draw_list (run_ops s ops) = draw_list s.
Proof.
  revert s; induction ops as [|o ops IH]; intros s; cbn; [reflexivity|].
  unfold run_ops in IH. rewrite IH. apply step_draw_list.
Qed.

Lemma run_ops_next_ref (s : Data) (ops : list Op) : (next_ref s <= next_ref (run_ops s ops))%nat.
Proof.
  revert s; induction ops as [|o ops IH]; intros s; cbn; [lia|].
  unfold run_ops in IH. specialize (IH (step s o)). pose proof (step_next_ref s o). lia.
Qed.

(** In every state reached from [Data()], [data.draw_list] is still the
    list object 0 and every fresh list object is numbered above it. *)
Lemma reachable_refs (ops : list Op) :
  draw_list (run_ops data_init ops) = 0%nat /\ (1 <= next_ref (run_ops data_init ops))%nat.
Proof.
  split; [apply run_ops_draw_list |].
  pose proof (run_ops_next_ref data_init ops) as H. cbn in H. lia.
Qed.

Lemma do_draw_other_lists (s : Data) (r : bool) (n k : nat) :
  k <> n -> heap (snd (do_draw s r n)) !! k = heap s !! k.
Proof.
  intros Hk. destruct (do_draw_frame s r n) as [sc [-> | ->]]; cbn; [reflexivity|].
  rewrite lookup_insert_ne; auto.
Qed.

(** ** Claim on [draw] *)

(** Claim C8.  In every state reached from [Data()], [draw()] appends one
    composite tagged [refresh = false] to the queue, whose list object is a
    new one holding a copy of the pending items; it empties the pending
    list and leaves the background list alone.  After any further
    operations, executing that composite leaves the pending draw list
    (the object [data.draw_list]) untouched. *)
Theorem C8_draw_snapshot (ops0 ops : list Op) :
  let s := run_ops data_init ops0 in
  let s' := draw s in
  let n := next_ref s in
  elements (render_commands s') = elements (render_commands s) ++ [mkComposite false n] /\
  heap_get s' n = heap_get s (draw_list s) /\
  n <> draw_list s /\
  heap_get s' (draw_list s') = [] /\ draw_list s' = draw_list s /\
  background_list s' = background_list s /\
  (let s2 := run_ops s' ops in
   draw_list s2 = draw_list s /\
   heap (snd (do_draw s2 false n)) !! draw_list s2 = heap s2 !! draw_list s2).
Proof.
  cbn zeta.
  destruct (reachable_refs ops0) as [Hd Hn].
  set (s := run_ops data_init ops0) in *.
  assert (Hne : next_ref s <> draw_list s) by lia.
  repeat split; try reflexivity.
  - unfold heap_get, draw; cbn.
    rewrite lookup_insert_ne by auto. rewrite lookup_insert_eq. reflexivity.
  - exact Hne.
  - unfold heap_get, draw; cbn. rewrite lookup_insert_eq. reflexivity.
  - rewrite run_ops_draw_list. reflexivity.
  - apply do_draw_other_lists. rewrite run_ops_draw_list. cbn. auto.
Qed.

(** ** Ordering *)

(** What the window shows for one item of a draw list. *)
Definition item_event (i : Item) : Event :=
  if item_raises i then Report (item_name i) else Run (item_name i).

Lemma run_draw_items_screen (s : Data) (l : list Item) :
  run_draw_items s l = with_heap_screen s (heap s) (screen s ++ map item_event l).
Proof.
  revert s; induction l as [|i l IH]; intros s; cbn.
  - rewrite app_nil_r, with_heap_screen_self. reflexivity.
  - unfold call_item, item_event. destruct (item_raises i); cbn; rewrite IH; cbn;
      rewrite <- app_assoc; reflexivity.
Qed.

Lemma add_draw_items_order (s : Data) (fs : list Item) :
  draw_list (fold_left add_draw_item fs s) = draw_list s /\
  heap_get (fold_left add_draw_item fs s) (draw_list s) = heap_get s (draw_list s) ++ fs.
Proof.
  revert s; induction fs as [|f fs IH]; intros s; cbn.
  - rewrite app_nil_r; auto.
  - destruct (IH (add_draw_item s f)) as [H1 H2]. cbn in H1, H2. split; [exact H1|].
    rewrite H2. unfold heap_get at 1; cbn. rewrite lookup_insert_eq; cbn.
    rewrite <- app_assoc. reflexivity.
Qed.

(** ** The list object captured by [redraw]

    [redraw()] pushes [data.draw_list] itself and then clears it, whereas
    [draw()] pushes [data.draw_list.copy()]; [do_draw] then reads and
    clears whatever that shared object holds when the render thread runs
    the composite. *)

(** Claim C2 (evaluation at the failing input).  After [start()] and one
    shape (item 1), [redraw()] enqueues a composite over list object 0,
    which [redraw()] has just emptied; when the render thread runs it, the
    window is filled and flipped but item 1 is never drawn. *)
Lemma C2_redraw_drops_pending :
  let s0 := run_ops data_init [OpStart "white"; OpAdd (good 1)] in
  let s1 := step s0 OpRedraw in
  let s2 := step s1 (OpRender 1760000000000 1760000000000) in
  heap_get s0 (draw_list s0) = [good 1] /\
  elements (render_commands s1) = [mkComposite true (draw_list s0)] /\
  heap_get s1 (draw_list s0) = [] /\
  elements (render_commands s2) = [] /\
  screen s2 = [Fill "white"; Flip; Fill "white"; Flip].
Proof. vm_compute. repeat split. Qed.

(** Claim C9 (evaluation at the failing input).  Items A, B, C (1, 2, 3)
    are added in that order and flushed with [redraw()].  The render thread
    runs the composite (fill, then flip) but executes none of the three:
    the composite's list object was emptied by [redraw()] itself.  Flushed
    with [draw()] instead, the same items run as A, B, C, once each. *)
Lemma C9_redraw_skips_items :
  let s0 := run_ops data_init [OpStart "white"; OpAdd (good 1); OpAdd (good 2);
                               OpAdd (good 3)] in
  let s1 := run_ops s0 [OpRedraw; OpRender 1760000000000 1760000000000] in
  let s2 := run_ops s0 [OpDraw; OpRender 1760000000000 1760000000000] in
  heap_get s0 (draw_list s0) = [good 1; good 2; good 3] /\
  screen s1 = [Fill "white"; Flip; Fill "white"; Flip] /\
  elements (render_commands s1) = [] /\
  screen s2 = [Fill "white"; Flip; Run 1; Run 2; Run 3; Flip].
Proof. vm_compute. repeat split. Qed.

(** Claim C7 (evaluation at the failing input).  The background list holds
    item 1 and [draw()] has emptied the pending list; [redraw()] is then
    called with an empty pending list, and the program adds item 2 before
    the render thread reaches the composite.  Running it fills the window
    and draws item 1, then also item 2, the item added after the call. *)
Lemma C7_redraw_runs_later_items :
  let s0 := run_ops data_init [OpStart "white"; OpBackgroundBegin; OpAdd (good 1);
                               OpBackgroundEnd; OpDraw] in
  let s1 := run_ops s0 [OpRedraw; OpAdd (good 2)] in
  let s2 := run_ops s1 [OpRender 1760000000000 1760000000000;
                        OpRender 1760000002000 1760000002000] in
  heap_get s0 (draw_list s0) = [] /\ background_list s0 = [good 1] /\
  screen s2 = [Fill "white"; Flip; Run 1; Flip; Fill "white"; Run 1; Run 2; Flip].
Proof. vm_compute. repeat split. Qed.

(** Claim C5 (evaluation at the failing input).  Two background items, the
    first of which raises (e.g. a circle drawn with an unknown colour
    name).  On the refresh, the exception of item 1 leaves [do_draw]:
    item 2 is never run, the window is not flipped and the render thread
    ends.  The same item in a draw list is caught and reported, and the
    items after it and the flip still run. *)
Lemma C5_background_item_raises :
  let s0 := run_ops data_init [OpStart "white"; OpBackgroundBegin; OpAdd (bad 1);
                               OpAdd (good 2); OpBackgroundEnd; OpRedraw] in
  let s1 := step s0 (OpRender 1760000000000 1760000000000) in
  background_list s0 = [bad 1; good 2] /\
  screen s1 = [Fill "white"; Flip; Fill "white"] /\
  thread_alive s1 = false /\
  (let s2 := run_ops data_init [OpStart "white"; OpAdd (bad 1); OpAdd (good 2); OpDraw;
                                OpRender 1760000000000 1760000000000] in
   screen s2 = [Fill "white"; Flip; Report 1; Run 2; Flip] /\ thread_alive s2 = true).
Proof. vm_compute. repeat split. Qed.

(** ** Rectangle geometry *)

Lemma half_plus_abs (w o : Z) : (w + Z.abs o * 2) / 2 = w / 2 + Z.abs o.
Proof. rewrite Z.div_add by lia. reflexivity. Qed.

(** The rect that [rectangle] draws on its temporary surface lies inside
    that surface, for every rotation point and every size. *)
Theorem rectangle_box_inside_surface (x_pos y_pos width height : Z) (rp : RotationPoint)
    (rot_w rot_h : Z) :
  let L := rectangle_layout x_pos y_pos width height rp rot_w rot_h in
  let '(rx, ry, rw, rh) := rect_box L in
  let '(sw, sh) := surf_size L in
  0 <= rx /\ rx + rw <= sw * nRenderRatio /\ 0 <= ry /\ ry + rh <= sh * nRenderRatio.
Proof.
  unfold rectangle_layout.
  destruct (rotation_offset_center x_pos y_pos width height rp) as [ox oy].
  cbn. rewrite !half_plus_abs. unfold nRenderRatio. lia.
Qed.

(** When the rotated surface keeps the size of the unrotated one (as for
    an angle of 0), the rectangle appears on the screen with its top left
    corner at [(x_pos, y_pos)], whatever the rotation point. *)
Theorem rectangle_unrotated_at_position (x_pos y_pos width height : Z) (rp : RotationPoint) :
  let '(sw, sh) := surf_size (rectangle_layout x_pos y_pos width height rp 0 0) in
  let L := rectangle_layout x_pos y_pos width height rp
             (sw * nRenderRatio) (sh * nRenderRatio) in
  let '(rx, ry, _, _) := rect_box L in
  scaled_size L = (sw, sh) /\
  fst (blit_pos L) + rx / nRenderRatio = x_pos /\
  snd (blit_pos L) + ry / nRenderRatio = y_pos.
Proof.
  unfold rectangle_layout.
  destruct (rotation_offset_center x_pos y_pos width height rp) as [ox oy].
  cbn. unfold nRenderRatio.
  rewrite !Z.div_mul by lia. rewrite !Z.sub_diag, !Zdiv_0_l.
  split; [reflexivity | split; lia].
Qed.

(** For every size of the rotated surface, the centre of the blitted
    surface lies on the rotation pivot (the rectangle's centre [(x_pos +
    width // 2, y_pos + height // 2)] moved by the rotation offset) or one
    pixel right of / below it: the pivot stays put as the angle changes. *)
Theorem rectangle_pivot_fixed (x_pos y_pos width height : Z) (rp : RotationPoint)
    (rot_w rot_h : Z) :
  let L := rectangle_layout x_pos y_pos width height rp rot_w rot_h in
  let '(ox, oy) := offset L in
  let '(w', h') := scaled_size L in
  0 <= fst (blit_pos L) + w' / 2 - (x_pos + width / 2 + ox) <= 1 /\
  0 <= snd (blit_pos L) + h' / 2 - (y_pos + height / 2 + oy) <= 1.
Proof.
  unfold rectangle_layout.
  destruct (rotation_offset_center x_pos y_pos width height rp) as [ox oy].
  cbn.
  set (sw := width + Z.abs ox * 2). set (sh := height + Z.abs oy * 2).
  set (w' := rot_w / nRenderRatio). set (h' := rot_h / nRenderRatio).
  pose proof (Z.div_mod w' 2) as A1; pose proof (Z.mod_pos_bound w' 2) as A2.
  pose proof (Z.div_mod sw 2) as B1; pose proof (Z.mod_pos_bound sw 2) as B2.
  pose proof (Z.div_mod (w' - sw) 2) as C1; pose proof (Z.mod_pos_bound (w' - sw) 2) as C2.
  pose proof (Z.div_mod h' 2) as D1; pose proof (Z.mod_pos_bound h' 2) as D2.
  pose proof (Z.div_mod sh 2) as E1; pose proof (Z.mod_pos_bound sh 2) as E2.
  pose proof (Z.div_mod (h' - sh) 2) as F1; pose proof (Z.mod_pos_bound (h' - sh) 2) as F2.
  lia.
Qed.

(** The named corner pivots are not the corner points: giving the corner
    itself as an explicit point yields an offset larger by
    [(width mod 2, height mod 2)], so for odd sizes each named corner pivot
    lies one pixel left of / above the true corner.  [CENTER] and the
    explicit point [(x_pos + width // 2, y_pos + height // 2)] agree. *)
Theorem rotation_corners_vs_points (x_pos y_pos width height : Z) :
  let off := rotation_offset_center x_pos y_pos width height in
  let d := (width mod 2, height mod 2) in
  off (Point x_pos y_pos) = (fst (off TOP_LEFT) + fst d, snd (off TOP_LEFT) + snd d) /\
  off (Point (x_pos + width) y_pos) = (fst (off TOP_RIGHT) + fst d, snd (off TOP_RIGHT) + snd d) /\
  off (Point x_pos (y_pos + height)) =
    (fst (off BOTTOM_LEFT) + fst d, snd (off BOTTOM_LEFT) + snd d) /\
  off (Point (x_pos + width) (y_pos + height)) =
    (fst (off BOTTOM_RIGHT) + fst d, snd (off BOTTOM_RIGHT) + snd d) /\
  off (Point (x_pos + width / 2) (y_pos + height / 2)) = off CENTER.
Proof.
  cbn.
  pose proof (Z.div_mod width 2) as A1; pose proof (Z.mod_pos_bound width 2) as A2.
  pose proof (Z.div_mod height 2) as B1; pose proof (Z.mod_pos_bound height 2) as B2.
  pose proof (Z.div_mod (- width) 2) as C1; pose proof (Z.mod_pos_bound (- width) 2) as C2.
  pose proof (Z.div_mod (- height) 2) as D1; pose proof (Z.mod_pos_bound (- height) 2) as D2.
  repeat split; f_equal; lia.
Qed.

(** ** Polygon builder *)

Lemma add_poly_points_spec (p : Builders.Painter) (pts : list (Z * Z)) :
  Builders.add_poly_points p pts =
    Builders.mkPainter (Builders.color p) (Builders.poly_width p)
      (Builders.poly_points p ++ pts) (Builders.draw_list p)
      (Builders.background_list p) (Builders.draw_background p).
Proof.
  revert p; induction pts as [|[x y] pts IH]; intros p; cbn.
  - rewrite app_nil_r. destruct p; reflexivity.
  - unfold Builders.add_poly_points in IH. rewrite IH. cbn.
    rewrite <- app_assoc. reflexivity.
Qed.

(** A polygon records the points added since [polygon_begin], in order,
    with the stroke given to [polygon_begin].  [polygon_end] does not clear
    the points: a second [polygon_end] without a new [polygon_begin] draws
    the earlier points again followed by the new ones. *)
Theorem polygon_points_accumulate (p : Builders.Painter) (stroke : Z)
    (ps qs : list (Z * Z)) :
  let p1 := Builders.polygon_end (Builders.add_poly_points (Builders.polygon_begin p stroke) ps) in
  let p2 := Builders.polygon_end (Builders.add_poly_points p1 qs) in
  Builders.draw_list p2 =
    Builders.draw_list p ++ [Builders.SPolygon (Builders.color p) ps stroke;
                             Builders.SPolygon (Builders.color p) (ps ++ qs) stroke] /\
  Builders.poly_points p2 = ps ++ qs.
Proof.
  cbn zeta. unfold Builders.polygon_end, Builders.add_draw_item.
  rewrite add_poly_points_spec. cbn.
  rewrite add_poly_points_spec. cbn.
  rewrite <- app_assoc. split; reflexivity.
Qed.

(** ** Background capture *)

Lemma add_items_fields (s : Data) (fs : list Item) :
  background_list (fold_left add_draw_item fs s) =
    (if draw_background s then background_list s ++ fs else background_list s) /\
  draw_background (fold_left add_draw_item fs s) = draw_background s.
Proof.
  revert s; induction fs as [|f fs IH]; intros s; cbn.
  - destruct (draw_background s); rewrite ?app_nil_r; auto.
  - destruct (IH (add_draw_item s f)) as [H1 H2]. cbn in H1, H2.
    rewrite H1, H2. destruct (draw_background s); cbn; rewrite <- ?app_assoc; auto.
Qed.

Lemma run_ops_adds (s : Data) (fs : list Item) :
  run_ops s (map OpAdd fs) = fold_left add_draw_item fs s.
Proof.
  revert s; induction fs as [|f fs IH]; intros s; cbn; [reflexivity|].
  unfold run_ops in IH. apply IH.
Qed.

(** Between [background_begin()] and [background_end()] every shape is
    added both to the pending list and to the background list, in call
    order; outside that mode the background list does not change. *)
Theorem background_capture (s : Data) (fs : list Item) :
  let s1 := run_ops s ([OpBackgroundBegin] ++ map OpAdd fs ++ [OpBackgroundEnd]) in
  background_list s1 = background_list s ++ fs /\
  heap_get s1 (draw_list s) = heap_get s (draw_list s) ++ fs /\
  draw_background s1 = false /\
  background_list (run_ops (set_draw_background s false) (map OpAdd fs)) = background_list s.
Proof.
  cbn zeta. rewrite !run_ops_app, !run_ops_adds.
  set (s0 := run_ops s [OpBackgroundBegin]).
  assert (Hs0 : s0 = set_draw_background s true) by reflexivity.
  destruct (add_items_fields s0 fs) as [H1 H2].
  destruct (add_draw_items_order s0 fs) as [H3 H4].
  destruct (add_items_fields (set_draw_background s false) fs) as [H5 _].
  rewrite Hs0 in H1, H3, H4. cbn in H1, H3, H4, H5.
  repeat split.
  - cbn. exact H1.
  - unfold heap_get in *; cbn. exact H4.
  - exact H5.
Qed.

(** ** The render loop *)

Lemma call_item_screen (s : Data) (i : Item) :
  exists shown, screen (snd (call_item s i)) = screen s ++ shown.
Proof.
  unfold call_item. destruct (item_raises i); cbn.
  - exists []. symmetry; apply app_nil_r.
  - eexists; reflexivity.
Qed.

Lemma run_background_screen (s : Data) (l : list Item) :
  exists shown, screen (snd (run_background s l)) = screen s ++ shown.
Proof.
  revert s; induction l as [|i l IH]; intros s; cbn.
  - exists []. symmetry; apply app_nil_r.
  - destruct (call_item_screen s i) as [sh Hsh].
    destruct (call_item s i) as [ok s'] eqn:Hc; cbn in Hsh.
    destruct ok; cbn.
    + destruct (IH s') as [sh' Hsh']. exists (sh ++ sh').
      rewrite Hsh', Hsh, app_assoc. reflexivity.
    + exists sh. exact Hsh.
Qed.

Lemma run_draw_items_screen_grows (s : Data) (l : list Item) :
  exists shown, screen (run_draw_items s l) = screen s ++ shown.
Proof.
  rewrite run_draw_items_screen. cbn. eexists; reflexivity.
Qed.

Lemma do_draw_screen (s : Data) (r : bool) (n : nat) :
  exists shown, screen (snd (do_draw s r n)) = screen s ++ shown.
Proof.
  unfold do_draw.
  assert (Hpre : exists sh, screen (snd (if r then run_background (log_event s (Fill (background s)))
                                          (background_list s) else (true, s)))
                            = screen s ++ sh).
  { destruct r.
    - destruct (run_background_screen (log_event s (Fill (background s))) (background_list s))
        as [sh Hsh]. exists ([Fill (background s)] ++ sh). rewrite Hsh. cbn.
      rewrite <- app_assoc. reflexivity.
    - exists []. symmetry; apply app_nil_r. }
  destruct Hpre as [sh Hsh].
  destruct (if r then _ else _) as [ok s1]; cbn in Hsh.
  destruct ok; cbn; [| exists sh; exact Hsh].
  destruct (run_draw_items_screen_grows s1 (heap_get s1 n)) as [sh' Hsh'].
  exists (sh ++ sh' ++ [Flip]). rewrite Hsh', Hsh. rewrite !app_assoc. reflexivity.
Qed.

(** One pass of the rendering block removes at most the head composite of
    the queue (and only from a non-empty queue), and only adds to what the
    window shows. *)
Theorem render_step_at_most_one (s : Data) (t1 t2 : Z) :
  let s' := render_step s t1 t2 in
  (elements (render_commands s') = elements (render_commands s) \/
   (elements (render_commands s) <> [] /\
    elements (render_commands s') = tail (elements (render_commands s)))) /\
  exists shown, screen s' = screen s ++ shown.
Proof.
  cbn zeta. unfold render_step.
  destruct (thread_alive s); cbn;
    [| split; [left; reflexivity | exists []; symmetry; apply app_nil_r]].
  destruct (running s); cbn;
    [| split; [left; reflexivity | exists []; symmetry; apply app_nil_r]].
  pose proof (pop_cases (render_commands s) t1 t2) as Hc.
  destruct (pop (render_commands s) t1 t2) as [el q'] eqn:Hp. cbn zeta in Hc.
  assert (Hq : elements q' = elements (render_commands s) \/
               (elements (render_commands s) <> [] /\
                elements q' = tail (elements (render_commands s)))).
  { destruct Hc as [(_ & Hr & He & _) | (_ & _ & He & _)]; [| left; exact He].
    destruct (elements (render_commands s)) eqn:E; [left; exact He|].
    right; split; [discriminate | exact He]. }
  destruct el as [c|]; cbn.
  - destruct (do_draw_frame (set_render_commands s q') (refresh c) (ls c)) as [sc Hsc].
    destruct (do_draw_screen (set_render_commands s q') (refresh c) (ls c)) as [sh Hsh].
    destruct (do_draw (set_render_commands s q') (refresh c) (ls c)) as [ok s2].
    cbn in Hsc, Hsh.
    destruct ok; cbn; split.
    + destruct Hsc as [-> | ->]; exact Hq.
    + exists sh; exact Hsh.
    + destruct Hsc as [-> | ->]; exact Hq.
    + exists sh; exact Hsh.
  - split; [exact Hq | exists []; symmetry; apply app_nil_r].
Qed.

Lemma step_dead (s : Data) (o : Op) :
  thread_alive s = false -> is_start o = false ->
  screen (step s o) = screen s /\ thread_alive (step s o) = false.
Proof.
  intros Hd Ho. destruct o; cbn in Ho |- *; try discriminate; auto.
  - unfold render_step. rewrite Hd. auto.
  - unfold event_step. rewrite Hd. auto.
Qed.

(** Once the render thread has ended (after a close seen with [done] set,
    or an exception out of [do_draw]), nothing more is shown in the window
    and the thread stays ended, whatever the program calls, until [start()]
    is called again. *)
Theorem dead_thread_draws_nothing (s : Data) (ops : list Op)
    (Hdead : thread_alive s = false) (Hops : forallb (fun o => negb (is_start o)) ops = true) :
  screen (run_ops s ops) = screen s /\ thread_alive (run_ops s ops) = false.
Proof.
  revert s Hdead; induction ops as [|o ops IH]; intros s Hdead; cbn in *; [auto|].
  apply andb_true_iff in Hops as [Ho Hops].
  destruct (step_dead s o Hdead) as [H1 H2]; [destruct (is_start o); auto|].
  unfold run_ops in IH. destruct (IH Hops (step s o) H2) as [H3 H4].
  rewrite H3, H1. auto.
Qed.

Lemma dead_thread_draws_nothing_witness :
  let s := run_ops data_init [OpStart "white"; OpDone; OpEvent QUIT;
                              OpRender 1760000000000 1760000000000] in
  let ops := [OpAdd (good 1); OpRedraw; OpRender 1760000002000 1760000002000; OpEvent QUIT] in
  thread_alive s = false /\ forallb (fun o => negb (is_start o)) ops = true /\
  (screen (run_ops s ops) = screen s /\ thread_alive (run_ops s ops) = false).
Proof.
  cbn zeta. split; [vm_compute; reflexivity|]. split; [vm_compute; reflexivity|].
  apply dead_thread_draws_nothing; vm_compute; reflexivity.
Defined.

(** [done()] followed by a window close ends the render thread: after the
    [QUIT] event (and any further events drained in the same pass), the
    next [while data.running] test leaves the loop. *)
Theorem done_then_close_ends_thread (s : Data) (evs : list PyEvent) (t1 t2 : Z)
    (Halive : thread_alive s = true) :
  thread_alive (run_ops s ([OpDone; OpEvent QUIT] ++ map OpEvent evs ++ [OpRender t1 t2])) = false.
Proof.
  rewrite !run_ops_app.
  set (s1 := run_ops s [OpDone; OpEvent QUIT]).
  assert (H1 : thread_alive s1 = true /\ running s1 = false /\ done s1 = true).
  { subst s1. cbn. unfold event_step. cbn. rewrite Halive. cbn. auto. }
  assert (H2 : forall s0 es, thread_alive s0 = true -> running s0 = false ->
                 thread_alive (run_ops s0 (map OpEvent es)) = true /\
                 running (run_ops s0 (map OpEvent es)) = false).
  { intros s0 es. revert s0. induction es as [|e es IH]; intros s0 Ha Hr; cbn; [auto|].
    apply IH; unfold event_step; rewrite Ha; cbn;
      destruct (is_quit e && done s0); cbn; auto. }
  destruct H1 as (Ha & Hr & _).
  destruct (H2 s1 evs Ha Hr) as [Ha' Hr'].
  unfold run_ops at 1; cbn [fold_left step]. unfold render_step. rewrite Ha', Hr'. reflexivity.
Qed.

Lemma done_then_close_ends_thread_witness :
  let s := run_ops data_init [OpStart "white"; OpAdd (good 1); OpDraw] in
  thread_alive s = true /\
  thread_alive (run_ops s ([OpDone; OpEvent QUIT] ++ map OpEvent [OtherEvent; QUIT] ++
                           [OpRender 1760000000000 1760000000000])) = false.
Proof.
  cbn zeta. split; [vm_compute; reflexivity|].
  apply done_then_close_ends_thread. vm_compute; reflexivity.
Defined.

(** ** [set_speed] *)

(** A higher speed level never gives a longer cooldown. *)
Theorem set_speed_antitone (s : Data) (a b : Z) (Hab : a <= b) :
  cooldown (render_commands (set_speed s b)) <= cooldown (render_commands (set_speed s a)).
Proof.
  cbn. unfold clamp_speed.
  destruct (Z.ltb_spec a 1), (Z.ltb_spec b 1), (Z.ltb_spec 10 a), (Z.ltb_spec 10 b); lia.
Qed.

Lemma set_speed_antitone_witness :
  3 <= 7 /\
  cooldown (render_commands (set_speed data_init 7)) <=
    cooldown (render_commands (set_speed data_init 3)).
Proof. split; [lia | apply set_speed_antitone; lia]. Defined.
